(** * Emirates card processor: the extraction pipeline of [main.py]

    A shallow embedding of the Python script: configuration loading
    ([get_secrets]), the storage upload ([upload_to_s3]), the OCR step
    ([process_card_side]), the question-answering step
    ([process_and_query]) and the submission handler of [main].

    Calls into boto3, langchain, streamlit and json are calls into code
    that lives outside the script.  They are modelled as an environment
    ([World]) that answers each call from the history of the calls made
    so far, so that every statement below holds for every behaviour of
    those services. *)

From Stdlib Require Import String Ascii List Arith Lia.
From stdpp Require Import gmap strings list fin_maps.

Open Scope string_scope.
Open Scope list_scope.
Open Scope nat_scope.

(* ===================================================================== *)
(** * Part I: definitions                                                 *)
(* ===================================================================== *)

(** ** Text windows (the chunker) *)

Section Windows.
Context {A : Type}.
Variables (size overlap : nat).

(** The last [n] elements of [l] (all of [l] when it is shorter). *)
Definition tail_of (n : nat) (l : list A) : list A :=
  drop (length l - n) l.

(** Modelled from the spec: the splitting algorithm itself is the
    library class RecursiveCharacterTextSplitter, whose code is not part
    of the script; the script only fixes its parameters.  Section 4.1 of
    the specification describes the policy: characters are packed
    greedily into the current window [cur]; when one more character
    would exceed [size], the window is closed and the next one starts
    [overlap] units before the end of the closed one.  A window is
    emitted at the end only if it holds something. *)
Fixpoint pack (cur t : list A) : list (list A) :=
  match t with
  | [] => match cur with [] => [] | _ :: _ => [cur] end
  | c :: t' =>
      if (length cur <? size)
      then pack (cur ++ [c]) t'
      else cur :: pack (tail_of overlap cur ++ [c]) t'
  end.

(** Consecutive windows share [overlap] units: the tail of one is the
    head of the next. *)
Fixpoint overlapping (cs : list (list A)) : Prop :=
  match cs with
  | a :: (b :: _) as rest =>
      (overlap <= length a /\ overlap <= length b
       /\ tail_of overlap a = take overlap b)
      /\ overlapping rest
  | _ => True
  end.

(** Concatenation with the declared overlap removed: the first window
    whole, every later one without its first [overlap] units. *)
Definition join_windows (cs : list (list A)) : list A :=
  match cs with
  | [] => []
  | c :: rest => c ++ concat (map (drop overlap) rest)
  end.
End Windows.

(** Line 58: [RecursiveCharacterTextSplitter(chunk_size=512,
    chunk_overlap=32, length_function=len)]. *)
Definition chunk_size : nat := 512.
Definition chunk_overlap : nat := 32.

Definition chars (s : string) : list ascii := list_ascii_of_string s.

(** Modelled from the spec: [text_splitter.split_text(text)] of line 59,
    whose code is the library's; the windows of section 4.1 with the
    parameters of line 58, lengths counted by [len]. *)
Definition split_text (text : string) : list string :=
  map string_of_list_ascii (pack chunk_size chunk_overlap [] (chars text)).

(** ** Python values, exceptions and documents *)

(** The exception classes the script names or provokes, and any other
    class an outside call may raise ([OtherException], by class name).
    All of them derive from Python's [Exception]. *)
Inductive exn_class :=
| NoCredentialsError
| ValueError
| KeyError
| IndexError
| AttributeError
| JSONDecodeError
| OtherException (name : string).

(** An exception instance: its class and what [str(e)] gives. *)
Record exn := Exn { exn_cls : exn_class; exn_str : string }.

Inductive outcome (A : Type) :=
| Return (a : A)
| Raise (e : exn).
Arguments Return {A} a.
Arguments Raise {A} e.

(** What [json.loads] builds.  A dict is its items in insertion order. *)
#[local] Unset Elimination Schemes.
Inductive json :=
| JNone
| JBool (b : bool)
| JInt (z : Z)
| JFloat (repr : string)
| JStr (s : string)
| JList (l : list json)
| JDict (items : list (string * json)).
#[local] Set Elimination Schemes.

(** [type(v).__name__], as it appears in an AttributeError message. *)
Definition type_name (v : json) : string :=
  match v with
  | JNone => "NoneType"
  | JBool _ => "bool"
  | JInt _ => "int"
  | JFloat _ => "float"
  | JStr _ => "str"
  | JList _ => "list"
  | JDict _ => "dict"
  end.

(** A langchain document; only its text is read by the script. *)
Record Document := { page_content : string }.

(** The content of an uploaded image. *)
Definition file := string.

(** ** The events of a run, in the order they happen

    Calls into the services with their results, the splitting step
    between them, and what is put on the page. *)

Inductive event :=
| EUpload (f : file) (bucket key : string) (r : outcome unit)
| ELoad (path : string) (r : outcome (list Document))
| ESplit (text : string) (chunks : list string)
| EIndex (texts : list string) (r : outcome unit)
| EChain (r : outcome unit)
| ESearch (query : string) (r : outcome (list Document))
| ERun (docs : list Document) (question : string) (r : outcome string)
| ESpinner (msg : string)
| EColumns (n : nat)
| EMarkdown (html : string)
| EError (msg : string)
| EWarning (msg : string).

Definition trace := list event.

(** The services and libraries behind the script.  Each service call is
    answered from the history of events so far, so that two calls with the
    same arguments may fare differently.
    - [s3_upload_fileobj]: [s3_client.upload_fileobj(file, bucket, key)];
    - [textract_load]: [AmazonTextractPDFLoader(path, client).load()];
    - [faiss_from_texts]: [FAISS.from_texts(texts, OpenAIEmbeddings())];
    - [load_qa_chain]: [load_qa_chain(OpenAI(), chain_type=stuff)];
    - [similarity_search]: [docsearch.similarity_search(query)];
    - [chain_run]: [chain.run(input_documents=docs, question=query)];
    - [json_loads]: [json.loads], [None] when it raises JSONDecodeError,
      which it does exactly on the strings that are not JSON documents;
    - [py_str]: the text an f-string puts for a parsed value. *)
Record World := {
  s3_upload_fileobj : trace -> file -> string -> string -> outcome unit;
  textract_load : trace -> string -> outcome (list Document);
  faiss_from_texts : trace -> list string -> outcome unit;
  load_qa_chain : trace -> outcome unit;
  similarity_search : trace -> string -> outcome (list Document);
  chain_run : trace -> list Document -> string -> outcome string;
  json_loads : string -> option json;
  py_str : json -> string
}.

(** ** A monad for the script: history in, new events and a result out *)

Definition M (A : Type) : Type := trace -> trace * outcome A.

Definition ret {A} (a : A) : M A := fun _ => ([], Return a).

Definition raise {A} (e : exn) : M A := fun _ => ([], Raise e).

Definition bind {A B} (m : M A) (f : A -> M B) : M B :=
  fun h =>
    match m h with
    | (t1, Return a) => let '(t2, r) := f a (h ++ t1) in (t1 ++ t2, r)
    | (t1, Raise e) => (t1, Raise e)
    end.

(** [try: m except <class>: handler]: the handler runs for the exceptions
    selected by [catches]; the others propagate. *)
Definition try_except {A} (m : M A) (catches : exn -> bool)
    (handler : exn -> M A) : M A :=
  fun h =>
    match m h with
    | (t1, Return a) => (t1, Return a)
    | (t1, Raise e) =>
        if catches e
        then let '(t2, r) := handler e (h ++ t1) in (t1 ++ t2, r)
        else (t1, Raise e)
    end.

Definition emit (e : event) : M unit := fun _ => ([e], Return tt).

(** A call to the outside: ask the world, log the call with its result. *)
Definition call {A} (ask : trace -> outcome A) (log : outcome A -> event)
    : M A :=
  fun h => let r := ask h in ([log r], r).

Definition lift {A} (r : outcome A) : M A := fun _ => ([], r).

Declare Scope py_scope.
Delimit Scope py_scope with py.
Notation "x <- m ;; k" := (bind m (fun x => k))
  (at level 100, m at next level, right associativity) : py_scope.
Notation "m ;;; k" := (bind m (fun _ => k))
  (at level 100, right associativity) : py_scope.
Open Scope py_scope.

Fixpoint for_each {A} (l : list A) (body : A -> M unit) : M unit :=
  match l with
  | [] => ret tt
  | x :: l' => body x ;;; for_each l' body
  end.

(** [d[key]] on a dict of strings. *)
Definition getitem (d : gmap string string) (key : string) : M string :=
  match d !! key with
  | Some v => ret v
  | None => raise (Exn KeyError ("'" +:+ key +:+ "'"))
  end.

(** [except NoCredentialsError], [except json.JSONDecodeError] and
    [except Exception]. *)
Definition is_NoCredentialsError (e : exn) : bool :=
  match exn_cls e with NoCredentialsError => true | _ => false end.

Definition is_JSONDecodeError (e : exn) : bool :=
  match exn_cls e with JSONDecodeError => true | _ => false end.

(** Every class of [exn_class] derives from [Exception]. *)
Definition is_Exception (e : exn) : bool := true.

(** ** Configuration: [get_secrets], lines 14-28 *)

Definition required_secrets : list string :=
  [ "OPENAI_API_KEY"; "LLAMA_CLOUD_API_KEY"; "AWS_ACCESS_KEY";
    "AWS_SECRET_KEY"; "AWS_BUCKET_NAME"; "AWS_REGION" ].

(** [{secret: st.secrets[secret] for secret in keys}], filling [acc]. *)
Fixpoint dict_of_secrets (st_secrets : gmap string string)
    (keys : list string) (acc : gmap string string)
    : outcome (gmap string string) :=
  match keys with
  | [] => Return acc
  | secret :: keys' =>
      match st_secrets !! secret with
      | Some v => dict_of_secrets st_secrets keys' (<[secret := v]> acc)
      | None => Raise (Exn KeyError ("'" +:+ secret +:+ "'"))
      end
  end.

Definition get_secrets (st_secrets : gmap string string)
    : outcome (gmap string string) :=
  let missing_secrets :=
    filter (fun secret => st_secrets !! secret = None) required_secrets in
  match missing_secrets with
  | _ :: _ =>
      Raise (Exn ValueError
               ("Missing required secrets: "
                +:+ String.concat ", " missing_secrets))
  | [] => dict_of_secrets st_secrets required_secrets ∅
  end.

(** ** The pipeline, lines 49-69 and 189-252 *)

Definition nl : string := String (ascii_of_nat 10) EmptyString.
Definition dq : string := String (ascii_of_nat 34) EmptyString.
Definition spaces (n : nat) : string := string_of_list_ascii (repeat " "%char n).

Definition front_query : string :=
  "Extract the following information from the given text as key-value pairs:"
  +:+ nl +:+ spaces 24 +:+ "Full Name (list both given name and full name)"
  +:+ nl +:+ spaces 24 +:+ "Card ID Number (format: ###-####-#######-#)"
  +:+ nl +:+ spaces 24 +:+ "Date of Birth (format: DD/MM/YYYY)"
  +:+ nl +:+ spaces 24 +:+ "Issue Date (format: DD/MM/YYYY)"
  +:+ nl +:+ spaces 24 +:+ "Expiry Date (format: DD/MM/YYYY)"
  +:+ nl +:+ spaces 24
  +:+ "Please return only these five fields in JSON format.".

Definition back_query : string :=
  "Extract the following from the text as key-value pairs:"
  +:+ nl +:+ spaces 24 +:+ "Occupation"
  +:+ nl +:+ spaces 24 +:+ "Employer name (starting with 'Employer:')"
  +:+ nl +:+ spaces 24
  +:+ "Return these two fields in JSON format, ignoring any other text.".

Definition front_header : string :=
  "<h3 style='color: #4a90e2; margin-bottom: 1rem;'>Front Side Details</h3>".

Definition back_header : string :=
  "<h3 style='color: #4a90e2; margin-bottom: 1rem;'>Back Side Details</h3>".

(** The f-string of lines 224-229 (and 237-242). *)
Definition field_html (key value : string) : string :=
  nl +:+ spaces 40 +:+ "<div class=" +:+ dq +:+ "output-field" +:+ dq +:+ ">"
  +:+ nl +:+ spaces 44 +:+ "<div class=" +:+ dq +:+ "field-label" +:+ dq
  +:+ ">" +:+ key +:+ "</div>"
  +:+ nl +:+ spaces 44 +:+ "<div class=" +:+ dq +:+ "field-value" +:+ dq
  +:+ ">" +:+ value +:+ "</div>"
  +:+ nl +:+ spaces 40 +:+ "</div>"
  +:+ nl +:+ spaces 40.

(** Truth value of what [upload_to_s3] returns: [None] and the empty
    string are false. *)
Definition truthy (p : option string) : bool :=
  match p with
  | None => false
  | Some s => negb (String.eqb s "")
  end.

Section Pipeline.
Variable w : World.
(** The module-level [secrets] dict of line 31. *)
Variable secrets : gmap string string.

Definition st_error (msg : string) : M unit := emit (EError msg).
Definition st_warning (msg : string) : M unit := emit (EWarning msg).
Definition st_markdown (html : string) : M unit := emit (EMarkdown html).

(** Lines 49-55. *)
Definition upload_to_s3 (f : file) (filename : string) (folder : string)
    : M (option string) :=
  try_except
    (let s3_path := folder +:+ "/" +:+ filename in
     bucket <- getitem secrets "AWS_BUCKET_NAME" ;;
     call (fun h => s3_upload_fileobj w h f bucket s3_path)
          (EUpload f bucket s3_path) ;;;
     bucket' <- getitem secrets "AWS_BUCKET_NAME" ;;
     ret (Some ("s3://" +:+ bucket' +:+ "/" +:+ s3_path)))
    is_NoCredentialsError
    (fun _ => ret None).

(** Lines 57-64. *)
Definition process_and_query (text query : string) : M string :=
  let texts := split_text text in
  emit (ESplit text texts) ;;;
  call (fun h => faiss_from_texts w h texts) (EIndex texts) ;;;
  call (load_qa_chain w) EChain ;;;
  docs <- call (fun h => similarity_search w h query) (ESearch query) ;;
  call (fun h => chain_run w h docs query) (ERun docs query).

(** Lines 66-69; [documents[0]] raises IndexError on an empty list. *)
Definition process_card_side (file_path : string) : M string :=
  documents <- call (fun h => textract_load w h file_path)
                    (ELoad file_path) ;;
  match documents with
  | d :: _ => ret (page_content d)
  | [] => raise (Exn IndexError "list index out of range")
  end.

Definition json_loads_py (s : string) : M json :=
  match json_loads w s with
  | Some v => ret v
  | None => raise (Exn JSONDecodeError "Expecting value")
  end.

(** [data.items()]: only a dict has the method. *)
Definition items_of (data : json) : M (list (string * json)) :=
  match data with
  | JDict items => ret items
  | v => raise (Exn AttributeError
                  ("'" +:+ type_name v
                   +:+ "' object has no attribute 'items'"))
  end.

(** Lines 218-244: a heading and one block per field, for each side. *)
Definition show_side (header : string) (data : json) : M unit :=
  st_markdown header ;;;
  items <- items_of data ;;
  for_each items (fun kv => st_markdown (field_html kv.1 (py_str w kv.2))).

(** Lines 189-252 of [main]; the page set-up before them (lines 72-187)
    draws the form and yields the two uploaded files and whether the
    button was pressed. *)
Definition main (front_file back_file : option file)
    (process_button : bool) : M unit :=
  if process_button then
    match front_file, back_file with
    | Some ff, Some bf =>
        emit (ESpinner "Processing your cards...") ;;;
        front_s3_path <- upload_to_s3 ff "front.jpg" "cards" ;;
        back_s3_path <- upload_to_s3 bf "back.jpg" "cards" ;;
        (* [if front_s3_path and back_s3_path]; in the true branch both
           hold a string, which [default] reads *)
        if truthy front_s3_path && truthy back_s3_path then
          try_except
            (front_text <- process_card_side (default "" front_s3_path) ;;
             front_result <- process_and_query front_text front_query ;;
             back_text <- process_card_side (default "" back_s3_path) ;;
             back_result <- process_and_query back_text back_query ;;
             try_except
               (front_data <- json_loads_py front_result ;;
                back_data <- json_loads_py back_result ;;
                emit (EColumns 2) ;;;
                show_side front_header front_data ;;;
                show_side back_header back_data)
               is_JSONDecodeError
               (fun _ => st_error "Error processing the card information"))
            is_Exception
            (fun e => st_error ("Error during processing: " +:+ exn_str e))
        else st_error "Error uploading files"
    | _, _ => st_warning "Please upload both front and back images"
    end
  else ret tt.
End Pipeline.

(** The script from its first line: the secrets are read at line 31, and
    [main] runs (line 255) only if that succeeded. *)
Definition script (w : World) (st_secrets : gmap string string)
    (front_file back_file : option file) (process_button : bool) : M unit :=
  secrets <- lift (get_secrets st_secrets) ;;
  main w secrets front_file back_file process_button.

(** ** What a run shows: observations on traces *)

(** [m], started after history [h], ends with new events and a result
    that satisfy [Q]. *)
Definition sat {A} (m : M A) (h : trace) (Q : trace -> outcome A -> Prop)
    : Prop :=
  Q (m h).1 (m h).2.

(** The observations [f] makes on the events of a trace, in order. *)
Fixpoint collect {A B} (f : A -> option B) (l : list A) : list B :=
  match l with
  | [] => []
  | x :: l' =>
      match f x with
      | Some y => y :: collect f l'
      | None => collect f l'
      end
  end.

(** The calls that leave the script (uploads, OCR, embedding, chain,
    retrieval, generation) and the splitting step between them. *)
Definition is_step (e : event) : bool :=
  match e with
  | EUpload _ _ _ _ | ELoad _ _ | ESplit _ _ | EIndex _ _ | EChain _
  | ESearch _ _ | ERun _ _ _ => true
  | _ => false
  end.

Definition is_upload (e : event) : bool :=
  match e with EUpload _ _ _ _ => true | _ => false end.

(** The exception a call ended with, if it did. *)
Definition failure_of (e : event) : option exn :=
  match e with
  | EUpload _ _ _ (Raise x) | ELoad _ (Raise x) | EIndex _ (Raise x)
  | EChain (Raise x) | ESearch _ (Raise x) | ERun _ _ (Raise x) => Some x
  | _ => None
  end.

Definition succeeded (e : event) : bool :=
  match failure_of e with Some _ => false | None => true end.

Definition steps (tr : trace) : list event :=
  collect (fun e => if is_step e then Some e else None) tr.

(** The steps after the two uploads. *)
Definition processing_steps (tr : trace) : list event :=
  collect (fun e => if is_step e && negb (is_upload e) then Some e else None) tr.

Definition upload_failures (tr : trace) : list exn :=
  collect (fun e => if is_upload e then failure_of e else None) tr.

Definition processing_failures (tr : trace) : list exn :=
  collect (fun e => if is_upload e then None else failure_of e) tr.

(** The model's answers, in the order they were given. *)
Definition answers (tr : trace) : list string :=
  collect (fun e => match e with
                 | ERun _ _ (Return out) => Some out
                 | _ => None
                 end) tr.

(** The chunk sequences produced by the splitting step. *)
Definition splits (tr : trace) : list (list string) :=
  collect (fun e => match e with ESplit _ cs => Some cs | _ => None end) tr.

Definition displayed (tr : trace) : list string :=
  collect (fun e => match e with EMarkdown html => Some html | _ => None end) tr.

Definition errors (tr : trace) : list string :=
  collect (fun e => match e with EError msg => Some msg | _ => None end) tr.

Definition warnings (tr : trace) : list string :=
  collect (fun e => match e with EWarning msg => Some msg | _ => None end) tr.

(** Bucket and key of every upload attempted. *)
Definition uploads (tr : trace) : list (string * string) :=
  collect (fun e => match e with
                 | EUpload _ b k _ => Some (b, k)
                 | _ => None
                 end) tr.

(** An OCR call that came back with no document. *)
Definition ocr_empty (e : event) : bool :=
  match e with ELoad _ (Return []) => true | _ => false end.

(** True when every element but the last satisfies [p]. *)
Fixpoint all_but_last {A} (p : A -> bool) (l : list A) : bool :=
  match l with
  | [] => true
  | x :: l' => match l' with [] => true | _ :: _ => p x && all_but_last p l' end
  end.

(** *** The stages of a request, in program order *)

Inductive side := Front | Back.

Inductive stage :=
| Upload (s : side)
| Ocr (s : side)
| Chunk (s : side)
| Embed (s : side)
| BuildChain (s : side)
| Retrieve (s : side)
| Answer (s : side).

Definition pipeline_order : list stage :=
  [ Upload Front; Upload Back;
    Ocr Front; Chunk Front; Embed Front; BuildChain Front; Retrieve Front;
    Answer Front;
    Ocr Back; Chunk Back; Embed Back; BuildChain Back; Retrieve Back;
    Answer Back ].

Definition side_file (s : side) : string :=
  match s with Front => "front.jpg" | Back => "back.jpg" end.

Definition side_query (s : side) : string :=
  match s with Front => front_query | Back => back_query end.

(** Event [e] is the call that stage [st] makes, for bucket [bucket]. *)
Definition performs (bucket : string) (st : stage) (e : event) : Prop :=
  match st, e with
  | Upload s, EUpload _ b k _ => b = bucket /\ k = "cards/" +:+ side_file s
  | Ocr s, ELoad path _ =>
      path = "s3://" +:+ bucket +:+ "/cards/" +:+ side_file s
  | Chunk _, ESplit text cs => cs = split_text text
  | Embed _, EIndex _ _ => True
  | BuildChain _, EChain _ => True
  | Retrieve s, ESearch q _ => q = side_query s
  | Answer s, ERun _ q _ => q = side_query s
  | _, _ => False
  end.

(** The events [evs] are, one by one and in order, the calls of an initial
    part of [order]. *)
Fixpoint follows (bucket : string) (order : list stage) (evs : list event)
    : Prop :=
  match evs, order with
  | [], _ => True
  | e :: evs', st :: order' =>
      performs bucket st e /\ follows bucket order' evs'
  | _ :: _, [] => False
  end.

(** *** The object store behind [upload_fileobj] *)

(** The objects a run handed to the store with success: bucket, key and
    content, in order. *)
Definition stored (tr : trace) : list (string * string * file) :=
  collect (fun e => match e with
                    | EUpload f b k (Return _) => Some (b, k, f)
                    | _ => None
                    end) tr.

(** A successful upload puts the file under its bucket and key, replacing
    what the key held; nothing else in a run writes to the store. *)
Definition s3_put (st : gmap (string * string) file)
    (obj : string * string * file) : gmap (string * string) file :=
  <[obj.1 := obj.2]> st.

Definition s3_after (tr : trace) (st : gmap (string * string) file)
    : gmap (string * string) file :=
  foldl s3_put st (stored tr).

(** ** Concrete worlds, for running the model *)

Definition name_card : list Document := [ {| page_content := "Name: A. Sample" |} ].

(** Every service answers; the model's answer is [answer]; only the empty
    JSON object and one two-field object parse. *)
Definition world_answering (answer : string) : World := {|
  s3_upload_fileobj := fun _ _ _ _ => Return tt;
  textract_load := fun _ _ => Return name_card;
  faiss_from_texts := fun _ _ => Return tt;
  load_qa_chain := fun _ => Return tt;
  similarity_search := fun _ _ => Return name_card;
  chain_run := fun _ _ _ => Return answer;
  json_loads := fun s =>
    if String.eqb s "{}" then Some (JDict []) else None;
  py_str := fun v => match v with JStr s => s | _ => type_name v end
|}.

(** The storage client has no credentials. *)
Definition world_no_credentials : World := {|
  s3_upload_fileobj := fun _ _ _ _ =>
    Raise (Exn NoCredentialsError "Unable to locate credentials");
  textract_load := fun _ _ => Return name_card;
  faiss_from_texts := fun _ _ => Return tt;
  load_qa_chain := fun _ => Return tt;
  similarity_search := fun _ _ => Return name_card;
  chain_run := fun _ _ _ => Return "{}";
  json_loads := fun s =>
    if String.eqb s "{}" then Some (JDict []) else None;
  py_str := fun v => type_name v
|}.

Definition client_error : exn :=
  Exn (OtherException "ClientError") "An error occurred (AccessDenied)".

(** The store accepts the front image and refuses the back one with an
    error that is not a credentials error. *)
Definition world_upload_refused : World := {|
  s3_upload_fileobj := fun _ _ _ key =>
    if String.eqb key "cards/back.jpg" then Raise client_error else Return tt;
  textract_load := fun _ _ => Return name_card;
  faiss_from_texts := fun _ _ => Return tt;
  load_qa_chain := fun _ => Return tt;
  similarity_search := fun _ _ => Return name_card;
  chain_run := fun _ _ _ => Return "{}";
  json_loads := fun s =>
    if String.eqb s "{}" then Some (JDict []) else None;
  py_str := fun v => type_name v
|}.

Definition full_settings : gmap string string :=
  list_to_map
    [ ("OPENAI_API_KEY", "sk-test"); ("LLAMA_CLOUD_API_KEY", "llx-test");
      ("AWS_ACCESS_KEY", "AKIATEST"); ("AWS_SECRET_KEY", "secret");
      ("AWS_BUCKET_NAME", "cards-bucket"); ("AWS_REGION", "me-central-1") ].

Definition settings_without_region : gmap string string :=
  delete "AWS_REGION" full_settings.

(** ** The start of the script, lines 30-47 *)





(** ** Further observations *)

(** The paths for which OCR came back with no document. *)
Definition empty_ocr (tr : trace) : list string :=
  collect (fun e => match e with
                    | ELoad path (Return []) => Some path
                    | _ => None
                    end) tr.

(** Step [e'] works on what step [e], the one before it, produced: the
    text that is split is the text of the first OCR document, the texts
    indexed are the chunks, and the model is asked the query of the search
    over the documents the search returned. *)
Definition feeds (e e' : event) : Prop :=
  match e, e' with
  | ELoad _ (Return docs), ESplit text _ =>
      match docs with
      | d :: _ => text = page_content d
      | [] => False
      end
  | ESplit _ chunks, EIndex texts _ => texts = chunks
  | EIndex _ (Return _), EChain _ => True
  | EChain (Return _), ESearch _ _ => True
  | ESearch query (Return docs), ERun docs' question _ =>
      docs' = docs /\ question = query
  | ERun _ _ (Return _), ELoad _ _ => True
  | _, _ => False
  end.

Fixpoint linked (l : list event) : Prop :=
  match l with
  | e :: (e' :: _) as rest => feeds e e' /\ linked rest
  | _ => True
  end.

(** The blocks shown for the items of a parsed record. *)
Definition field_blocks (w : World) (items : list (string * json))
    : list string :=
  map (fun kv => field_html kv.1 (py_str w kv.2)) items.

(** The message shown when [.items()] is called on a value [v] that is
    not a dict. *)
Definition items_error (v : json) : string :=
  "Error during processing: '" +:+ type_name v
  +:+ "' object has no attribute 'items'".

Definition is_dict (v : json) : bool :=
  match v with JDict _ => true | _ => false end.

(** *** More concrete worlds *)

Definition name_record : string :=
  "{" +:+ dq +:+ "Name" +:+ dq +:+ ": " +:+ dq +:+ "A. Sample" +:+ dq +:+ "}".

(** Every service answers; the model answers [front_answer] to the front
    query and [back_answer] to any other; three JSON documents parse. *)
Definition world_two_answers (front_answer back_answer : string) : World := {|
  s3_upload_fileobj := fun _ _ _ _ => Return tt;
  textract_load := fun _ _ => Return name_card;
  faiss_from_texts := fun _ _ => Return tt;
  load_qa_chain := fun _ => Return tt;
  similarity_search := fun _ _ => Return name_card;
  chain_run := fun _ _ question =>
    if String.eqb question front_query then Return front_answer
    else Return back_answer;
  json_loads := fun s =>
    if String.eqb s "{}" then Some (JDict [])
    else if String.eqb s "[]" then Some (JList [])
    else if String.eqb s name_record
         then Some (JDict [("Name", JStr "A. Sample")])
    else None;
  py_str := fun v => match v with JStr s => s | _ => type_name v end
|}.

(** OCR finds nothing on the image. *)
Definition world_blank_image : World := {|
  s3_upload_fileobj := fun _ _ _ _ => Return tt;
  textract_load := fun _ _ => Return [];
  faiss_from_texts := fun _ _ => Return tt;
  load_qa_chain := fun _ => Return tt;
  similarity_search := fun _ _ => Return name_card;
  chain_run := fun _ _ _ => Return "{}";
  json_loads := fun s =>
    if String.eqb s "{}" then Some (JDict []) else None;
  py_str := fun v => type_name v
|}.

(* ===================================================================== *)
(** * Part II: theorems                                                   *)
(* ===================================================================== *)

Section WindowFacts.
Context {A : Type}.
Variables (size overlap : nat).
Hypothesis overlap_lt_size : overlap < size.

Lemma length_tail_of (n : nat) (l : list A) :
  length (tail_of n l) = Nat.min n (length l).
Proof. unfold tail_of. rewrite length_drop. lia. Qed.

Lemma pack_head (cur t : list A) :
  cur <> [] ->
  exists sfx rest, pack size overlap cur t = (cur ++ sfx) :: rest.
Proof.
  revert cur. induction t as [|c t IH]; intros cur Hne; simpl.
  - destruct cur; [congruence|]. exists [], []. by rewrite app_nil_r.
  - destruct (length cur <? size).
    + destruct (IH (cur ++ [c])) as (sfx & rest & ->).
      { by destruct cur. }
      exists (c :: sfx), rest. by rewrite <- app_assoc.
    + exists [], (pack size overlap (tail_of overlap cur ++ [c]) t).
      by rewrite app_nil_r.
Qed.

Lemma pack_bound (cur t : list A) :
  length cur <= size ->
  Forall (fun c => length c <= size) (pack size overlap cur t).
Proof.
  revert cur. induction t as [|c t IH]; intros cur Hle; simpl.
  - destruct cur; auto.
  - destruct (Nat.ltb_spec (length cur) size) as [Hlt|Hge].
    + apply IH. rewrite length_app. simpl. lia.
    + constructor; [exact Hle|]. apply IH.
      rewrite length_app, length_tail_of. simpl. lia.
Qed.

Lemma pack_join (cur t : list A) :
  join_windows overlap (pack size overlap cur t) = cur ++ t.
Proof.
  revert cur. induction t as [|c t IH]; intros cur; simpl.
  - destruct cur; simpl; by rewrite ?app_nil_r.
  - destruct (Nat.ltb_spec (length cur) size) as [Hlt|Hge].
    + rewrite IH. by rewrite <- app_assoc.
    + simpl. f_equal.
      pose proof (IH (tail_of overlap cur ++ [c])) as Hj.
      destruct (pack_head (tail_of overlap cur ++ [c]) t)
        as (sfx & rest & Hp).
      { by destruct (tail_of overlap cur). }
      rewrite Hp in Hj |- *. simpl in Hj |- *.
      assert (Hlen : length (tail_of overlap cur) = overlap)
        by (rewrite length_tail_of; lia).
      rewrite <- (drop_app_le _ (concat (map (drop overlap) rest)))
        by (rewrite !length_app; lia).
      rewrite Hj, <- app_assoc.
      by rewrite drop_app_length' by (symmetry; exact Hlen).
Qed.

Lemma pack_overlapping (cur t : list A) :
  overlapping overlap (pack size overlap cur t).
Proof.
  revert cur. induction t as [|c t IH]; intros cur; simpl.
  - by destruct cur.
  - destruct (Nat.ltb_spec (length cur) size) as [Hlt|Hge]; [apply IH|].
    pose proof (IH (tail_of overlap cur ++ [c])) as Ho.
    destruct (pack_head (tail_of overlap cur ++ [c]) t)
      as (sfx & rest & Hp).
    { by destruct (tail_of overlap cur). }
    rewrite Hp in Ho |- *.
    assert (Hlen : length (tail_of overlap cur) = overlap)
      by (rewrite length_tail_of; lia).
    split; [|exact Ho]. split; [lia|].
    split; [rewrite !length_app; lia|].
    rewrite <- app_assoc. by rewrite take_app_length' by (symmetry; exact Hlen).
Qed.

Lemma pack_fits (cur t : list A) :
  length cur + length t <= size ->
  pack size overlap cur t =
    match cur ++ t with [] => [] | _ :: _ => [cur ++ t] end.
Proof.
  revert cur. induction t as [|c t IH]; intros cur Hle; simpl in *.
  - rewrite app_nil_r. by destruct cur.
  - destruct (Nat.ltb_spec (length cur) size) as [Hlt|Hge]; [|lia].
    rewrite IH by (rewrite length_app; simpl; lia).
    by rewrite <- app_assoc.
Qed.

Lemma pack_lengths (cur cur' t t' : list A) :
  length cur = length cur' -> length t = length t' ->
  map length (pack size overlap cur t)
  = map length (pack size overlap cur' t').
Proof.
  revert cur cur' t'. induction t as [|c t IH]; intros cur cur' t' Hc Ht;
    destruct t' as [|c' t']; try discriminate; simpl.
  - destruct cur, cur'; try discriminate; simpl in *; congruence.
  - rewrite <- Hc. injection Ht as Ht.
    destruct (length cur <? size).
    + apply IH; [rewrite !length_app; simpl; lia|exact Ht].
    + simpl. f_equal; [exact Hc|].
      apply IH; [|exact Ht].
      rewrite !length_app, !length_tail_of. simpl. lia.
Qed.
End WindowFacts.

(** ** The chunker on strings *)

Lemma length_of_list_ascii (l : list ascii) :
  String.length (string_of_list_ascii l) = length l.
Proof. induction l as [|c l IH]; simpl; congruence. Qed.

Lemma length_chars (s : string) : length (chars s) = String.length s.
Proof. induction s as [|c s IH]; simpl; congruence. Qed.

Lemma chars_split_text (T : string) :
  map chars (split_text T) = pack chunk_size chunk_overlap [] (chars T).
Proof.
  unfold split_text. rewrite map_map.
  erewrite map_ext; [apply map_id|].
  intros l. apply list_ascii_of_string_of_list_ascii.
Qed.

Lemma overlap_lt_size : chunk_overlap < chunk_size.
Proof. unfold chunk_overlap, chunk_size. lia. Qed.

(** C1. For every text [T], every chunk of [split_text T] is at most 512
    units long, consecutive chunks share 32 units (the last 32 of one are
    the first 32 of the next), and the chunks joined with those 32 units
    removed give back [T]. *)
Theorem split_text_windows (T : string) :
  Forall (fun c => String.length c <= chunk_size) (split_text T)
  /\ overlapping chunk_overlap (map chars (split_text T))
  /\ string_of_list_ascii
       (join_windows chunk_overlap (map chars (split_text T))) = T.
Proof.
  split; [|split].
  - unfold split_text. rewrite Forall_map.
    eapply Forall_impl.
    + apply (pack_bound chunk_size chunk_overlap overlap_lt_size).
      simpl. lia.
    + intros l Hl. simpl. by rewrite length_of_list_ascii.
  - rewrite chars_split_text.
    apply (pack_overlapping chunk_size chunk_overlap overlap_lt_size).
  - rewrite chars_split_text, (pack_join _ _ overlap_lt_size). simpl.
    apply string_of_list_ascii_of_string.
Qed.

(** C6. A non-empty text of at most 512 units gives exactly one chunk,
    the text itself; the empty text gives no chunk. *)
Theorem split_text_small (T : string) :
  (T <> "" -> String.length T <= chunk_size -> split_text T = [T])
  /\ split_text "" = [].
Proof.
  split; [|reflexivity].
  intros Hne Hlen. unfold split_text.
  rewrite (pack_fits chunk_size chunk_overlap overlap_lt_size)
    by (rewrite length_chars; simpl; lia).
  simpl. destruct T as [|c T]; [done|]. simpl.
  by rewrite string_of_list_ascii_of_string.
Qed.

Lemma split_text_small_witness : split_text "Name: A. Sample" = ["Name: A. Sample"].
Proof.
  apply (proj1 (split_text_small "Name: A. Sample")).
  - discriminate.
  - vm_compute. lia.
Defined.

(** ** Rules for runs of the monad *)

Section Rules.
Context {A B : Type}.

Lemma sat_run (m : M A) h (Q : trace -> outcome A -> Prop) :
  sat m h Q -> forall tr r, m h = (tr, r) -> Q tr r.
Proof. unfold sat. intros HQ tr r E. by rewrite E in HQ. Qed.

Lemma sat_ret (a : A) h (Q : trace -> outcome A -> Prop) :
  Q [] (Return a) -> sat (ret a) h Q.
Proof. done. Qed.

Lemma sat_raise e h (Q : trace -> outcome A -> Prop) :
  Q [] (Raise e) -> sat (raise e) h Q.
Proof. done. Qed.

Lemma sat_emit ev h (Q : trace -> outcome unit -> Prop) :
  Q [ev] (Return tt) -> sat (emit ev) h Q.
Proof. done. Qed.

Lemma sat_call (ask : trace -> outcome A) log h
    (Q : trace -> outcome A -> Prop) :
  (forall r, ask h = r -> Q [log r] r) -> sat (call ask log) h Q.
Proof. intros HQ. by apply HQ. Qed.

Lemma sat_bind (m : M A) (f : A -> M B) h
    (Q : trace -> outcome B -> Prop) :
  sat m h (fun t1 (r : outcome A) =>
             match r with
             | Return a =>
                 sat (f a) (h ++ t1) (fun t2 r2 => Q (t1 ++ t2) r2)
             | Raise e => Q t1 (Raise e)
             end) ->
  sat (bind m f) h Q.
Proof.
  unfold sat, bind. destruct (m h) as [t1 [a|e]]; simpl; [|done].
  by destruct (f a (h ++ t1)).
Qed.

Lemma sat_try (m : M A) (catches : exn -> bool) (handler : exn -> M A) h
    (Q : trace -> outcome A -> Prop) :
  sat m h (fun t1 (r : outcome A) =>
             match r with
             | Return a => Q t1 (Return a)
             | Raise e =>
                 if catches e
                 then sat (handler e) (h ++ t1)
                        (fun t2 r2 => Q (t1 ++ t2) r2)
                 else Q t1 (Raise e)
             end) ->
  sat (try_except m catches handler) h Q.
Proof.
  unfold sat, try_except. destruct (m h) as [t1 [a|e]]; simpl; [done|].
  destruct (catches e); [|done]. by destruct (handler e (h ++ t1)).
Qed.

Lemma sat_eq (m : M A) h tr r (Q : trace -> outcome A -> Prop) :
  m h = (tr, r) -> Q tr r -> sat m h Q.
Proof. unfold sat. by intros ->. Qed.
End Rules.

Lemma for_each_emit {A} (g : A -> event) (l : list A) (h : trace) :
  for_each l (fun x => emit (g x)) h = (map g l, Return tt).
Proof.
  revert h. induction l as [|x l IH]; intros h; [done|].
  simpl. unfold bind at 1. simpl. by rewrite IH.
Qed.

(** One rule per shape of program; a call splits into its two results. *)
Ltac wp_step :=
  lazymatch goal with
  | |- sat (bind _ _) _ _ => apply sat_bind
  | |- sat (try_except _ _ _) _ _ => apply sat_try
  | |- sat (call _ _) _ _ =>
      let r := fresh "r" in
      apply sat_call; intros r _; destruct r as [?|?]
  | |- sat (emit _) _ _ => apply sat_emit
  | |- sat (ret _) _ _ => apply sat_ret
  | |- sat (raise _) _ _ => apply sat_raise
  | |- sat (st_error _) _ _ => apply sat_emit
  | |- sat (st_warning _) _ _ => apply sat_emit
  | |- sat (st_markdown _) _ _ => apply sat_emit
  | |- sat (match ?x with _ => _ end) _ _ => destruct x eqn:?
  end.

Ltac wp := repeat (wp_step; cbv beta iota).

(** ** The parts of the pipeline, run *)

Section Parts.
Variable w : World.
Variable secrets : gmap string string.

Lemma upload_to_s3_run bucket f filename folder h :
  secrets !! "AWS_BUCKET_NAME" = Some bucket ->
  upload_to_s3 w secrets f filename folder h =
    let key := folder +:+ "/" +:+ filename in
    let r := s3_upload_fileobj w h f bucket key in
    ([EUpload f bucket key r],
     match r with
     | Return _ => Return (Some ("s3://" +:+ bucket +:+ "/" +:+ key))
     | Raise e => if is_NoCredentialsError e then Return None else Raise e
     end).
Proof.
  intros Hb.
  unfold upload_to_s3, try_except, bind, getitem, call, ret.
  rewrite Hb. cbv beta iota zeta. rewrite !app_nil_r.
  destruct (s3_upload_fileobj w h f bucket _) as [[]|e]; [done|].
  by destruct (is_NoCredentialsError e).
Qed.

Lemma upload_to_s3_unconfigured f filename folder h :
  secrets !! "AWS_BUCKET_NAME" = None ->
  upload_to_s3 w secrets f filename folder h =
    ([], Raise (Exn KeyError "'AWS_BUCKET_NAME'")).
Proof.
  intros Hb. unfold upload_to_s3, try_except, bind, getitem. by rewrite Hb.
Qed.

Lemma sat_upload bucket f filename h
    (Q : trace -> outcome (option string) -> Prop) :
  secrets !! "AWS_BUCKET_NAME" = Some bucket ->
  (forall r, s3_upload_fileobj w h f bucket ("cards/" +:+ filename) = r ->
     Q [EUpload f bucket ("cards/" +:+ filename) r]
       match r with
       | Return _ =>
           Return (Some ("s3://" +:+ bucket +:+ "/cards/" +:+ filename))
       | Raise e =>
           if is_NoCredentialsError e then Return None else Raise e
       end) ->
  sat (upload_to_s3 w secrets f filename "cards") h Q.
Proof.
  intros Hb HQ. eapply sat_eq; [by apply upload_to_s3_run|].
  by apply HQ.
Qed.

Lemma sat_show_side header data h (Q : trace -> outcome unit -> Prop) :
  match data with
  | JDict items =>
      Q (EMarkdown header
           :: map (fun kv => EMarkdown (field_html kv.1 (py_str w kv.2)))
                items)
        (Return tt)
  | v => Q [EMarkdown header]
           (Raise (Exn AttributeError
                     ("'" +:+ type_name v
                      +:+ "' object has no attribute 'items'")))
  end ->
  sat (show_side w header data) h Q.
Proof.
  intros HQ. unfold show_side, items_of.
  destruct data; wp; try exact HQ.
  unfold st_markdown. eapply sat_eq; [apply for_each_emit|].
  rewrite app_nil_l. exact HQ.
Qed.
End Parts.

Lemma sat_show_side_cases w header data h
    (Q : trace -> outcome unit -> Prop) :
  (forall items, data = JDict items ->
     Q (EMarkdown header
          :: map (fun kv => EMarkdown (field_html kv.1 (py_str w kv.2))) items)
       (Return tt)) ->
  (forall e, exn_cls e = AttributeError -> Q [EMarkdown header] (Raise e)) ->
  sat (show_side w header data) h Q.
Proof.
  intros Hd He. apply sat_show_side. destruct data; try (by apply He).
  by apply Hd.
Qed.

(** The steps of [main]: uploads by their three results, the two sides
    call by call, the display by whether the parsed value is a dict. *)
Ltac main_step Hb :=
  lazymatch goal with
  | |- sat (upload_to_s3 _ _ _ _ _) _ _ =>
      let r := fresh "r" in
      let Hr := fresh "Hup" in
      let e := fresh "e" in
      apply (sat_upload _ _ _ _ _ _ _ Hb); intros r Hr;
      destruct r as [[]|e]; [|destruct (is_NoCredentialsError e) eqn:?]
  | |- sat (process_card_side _ _) _ _ => unfold process_card_side
  | |- sat (process_and_query _ _ _) _ _ => unfold process_and_query
  | |- sat (json_loads_py _ _) _ _ => unfold json_loads_py
  | |- sat (show_side _ _ _) _ _ =>
      let items := fresh "items" in
      let e := fresh "e" in
      apply sat_show_side_cases; [intros items ->|intros e ?]
  | |- sat (if ?c then _ else _) _ _ =>
      first [ change c with true | change c with false ]
  | |- if ?c then _ else _ =>
      first [ change c with true | change c with false | destruct c eqn:? ]
  | _ => wp_step
  end.

Ltac run_main Hb := unfold main; repeat (main_step Hb; cbv beta iota zeta).

(** ** Observations distribute over the display of a side *)

Lemma collect_app {A B} (f : A -> option B) (l1 l2 : list A) :
  collect f (l1 ++ l2) = collect f l1 ++ collect f l2.
Proof.
  induction l1 as [|x l1 IH]; [done|].
  simpl. destruct (f x); simpl; by rewrite IH.
Qed.

Lemma collect_fields {B} (f : event -> option B) (g : string * json -> string)
    (items : list (string * json)) :
  (forall html, f (EMarkdown html) = None) ->
  collect f (map (fun kv => EMarkdown (g kv)) items) = [].
Proof.
  intros Hf. induction items as [|kv items IH]; [done|].
  simpl. by rewrite Hf.
Qed.

(** Normal form of an observation on the trace of a leaf. *)
Ltac observe :=
  unfold answers, splits, displayed, errors, warnings, uploads, stored, steps,
    processing_steps, upload_failures, processing_failures in *;
  simpl in *;
  repeat first
    [ rewrite collect_app in *
    | rewrite collect_fields in * by done
    | progress simpl in * ].

(** ** The submission handler *)

Lemma main_unconfigured w secrets ff bf h :
  secrets !! "AWS_BUCKET_NAME" = None ->
  main w secrets (Some ff) (Some bf) true h =
    ([ESpinner "Processing your cards..."],
     Raise (Exn KeyError "'AWS_BUCKET_NAME'")).
Proof.
  intros Hb. unfold main, bind, emit.
  by rewrite upload_to_s3_unconfigured.
Qed.

(** C5. A submission with the front or the back image missing shows the
    validation warning and does nothing else: the warning is the only
    event of the run, so no upload, OCR, chunking, retrieval or model call
    takes place. *)
Theorem missing_image_warning (w : World) (secrets : gmap string string)
    (front_file back_file : option file) (h : trace) :
  front_file = None \/ back_file = None ->
  main w secrets front_file back_file true h
    = ([EWarning "Please upload both front and back images"], Return tt)
  /\ steps (main w secrets front_file back_file true h).1 = [].
Proof.
  intros [-> | ->]; [|destruct front_file]; by split.
Qed.

Lemma missing_image_warning_witness :
  main (world_answering "{}") full_settings None (Some "back-image") true []
    = ([EWarning "Please upload both front and back images"], Return tt)
  /\ steps (main (world_answering "{}") full_settings None
              (Some "back-image") true []).1 = [].
Proof.
  apply (missing_image_warning (world_answering "{}") full_settings
           None (Some "back-image") []).
  left. reflexivity.
Defined.

(** C10. [process_card_side] returns the text of the first document that
    the OCR loader produced, whatever follows it, and fails with an
    IndexError when the loader produced no document. *)
Theorem process_card_side_first_document (w : World) (path : string)
    (h : trace) (docs : list Document) :
  textract_load w h path = Return docs ->
  process_card_side w path h =
    ([ELoad path (Return docs)],
     match docs with
     | d :: _ => Return (page_content d)
     | [] => Raise (Exn IndexError "list index out of range")
     end).
Proof.
  intros Hload. unfold process_card_side, bind, call. rewrite Hload.
  by destruct docs.
Qed.

Lemma process_card_side_first_document_witness :
  process_card_side (world_answering "{}") "s3://cards-bucket/cards/front.jpg" []
  = ([ELoad "s3://cards-bucket/cards/front.jpg" (Return name_card)],
     Return "Name: A. Sample").
Proof.
  apply (process_card_side_first_document (world_answering "{}")
           "s3://cards-bucket/cards/front.jpg" [] name_card).
  reflexivity.
Defined.

(** C2. When both answers have been obtained and one of them is not
    valid JSON, [json.loads] raises JSONDecodeError, [main] returns
    normally, the only message is "Error processing the card information",
    it is the last thing shown, and no field or heading of either side is
    displayed. *)
Theorem malformed_json_reported (w : World) (secrets : gmap string string)
    (ff bf : file) (h : trace) (out_f out_b : string) :
  forall tr r,
  main w secrets (Some ff) (Some bf) true h = (tr, r) ->
  answers tr = [out_f; out_b] ->
  json_loads w out_f = None \/ json_loads w out_b = None ->
  (forall out h', json_loads w out = None ->
     exists msg, json_loads_py w out h' = ([], Raise (Exn JSONDecodeError msg)))
  /\ r = Return tt
  /\ errors tr = ["Error processing the card information"]
  /\ last tr = Some (EError "Error processing the card information")
  /\ displayed tr = [].
Proof.
  destruct (secrets !! "AWS_BUCKET_NAME") as [bucket|] eqn:Hb.
  2:{ intros tr r. rewrite main_unconfigured by done. by intros [= <- <-]. }
  refine (sat_run _ _ _ _). run_main Hb.
  all: observe; intros Hans Hbad; simplify_eq.
  all: try (destruct Hbad; congruence).
  all: split; [|done].
  all: intros out h' Hout; unfold json_loads_py; rewrite Hout; by eexists.
Qed.

Lemma malformed_json_reported_witness :
  let run := main (world_answering "not json") full_settings
               (Some "front-image") (Some "back-image") true [] in
  (forall out h', json_loads (world_answering "not json") out = None ->
     exists msg, json_loads_py (world_answering "not json") out h'
                 = ([], Raise (Exn JSONDecodeError msg)))
  /\ run.2 = Return tt
  /\ errors run.1 = ["Error processing the card information"]
  /\ last run.1 = Some (EError "Error processing the card information")
  /\ displayed run.1 = [].
Proof.
  apply (malformed_json_reported (world_answering "not json") full_settings
           "front-image" "back-image" [] "not json" "not json" _ _
           (surjective_pairing _)).
  - vm_compute. reflexivity.
  - left. vm_compute. reflexivity.
Defined.

(** C3, as stated, fails: the store refuses the back image with an error
    other than a credentials error; the exception leaves [main] and no
    message is shown. *)
Lemma upload_failure_escapes :
  main world_upload_refused full_settings
    (Some "front-image") (Some "back-image") true []
  = ([ ESpinner "Processing your cards...";
       EUpload "front-image" "cards-bucket" "cards/front.jpg" (Return tt);
       EUpload "back-image" "cards-bucket" "cards/back.jpg"
         (Raise client_error) ],
     Raise client_error)
  /\ errors (main world_upload_refused full_settings
               (Some "front-image") (Some "back-image") true []).1 = [].
Proof. split; vm_compute; reflexivity. Qed.

(** C3, amended. With the bucket configured and no upload failing with
    anything but NoCredentialsError, no exception leaves [main]: a failure
    of OCR, embedding, chain set-up, retrieval or generation ends the run
    with the single message "Error during processing: <description>"; a
    failed upload ends it with the single message "Error uploading files",
    with no step after the uploads and nothing of either side displayed. *)
Theorem request_failures_reported (w : World) (secrets : gmap string string)
    (bucket : string) (ff bf : file) (h : trace) :
  secrets !! "AWS_BUCKET_NAME" = Some bucket ->
  forall tr r,
  main w secrets (Some ff) (Some bf) true h = (tr, r) ->
  Forall (fun e => exn_cls e = NoCredentialsError) (upload_failures tr) ->
  r = Return tt
  /\ (forall e, e ∈ processing_failures tr ->
        errors tr = ["Error during processing: " +:+ exn_str e]
        /\ last tr = Some (EError ("Error during processing: " +:+ exn_str e)))
  /\ (upload_failures tr <> [] ->
        errors tr = ["Error uploading files"]
        /\ processing_steps tr = []
        /\ displayed tr = []).
Proof.
  intros Hb. refine (sat_run _ _ _ _). run_main Hb.
  all: observe; intros Hcred.
  all: repeat match goal with
         | H : Forall _ (_ :: _) |- _ => inversion H; clear H; subst
         | H : is_NoCredentialsError ?e = false, H' : exn_cls ?e = _ |- _ =>
             unfold is_NoCredentialsError in H; rewrite H' in H; discriminate
         end.
  all: split; [reflexivity|split].
  all: try (intros x Hin; apply list_elem_of_In in Hin; simpl in Hin;
            intuition (subst; done)).
  all: try (intros Hne; by repeat split).
  all: try (intros Hne; congruence).
Qed.

Lemma request_failures_reported_witness :
  let run := main world_no_credentials full_settings
               (Some "front-image") (Some "back-image") true [] in
  run.2 = Return tt
  /\ (forall e, e ∈ processing_failures run.1 ->
        errors run.1 = ["Error during processing: " +:+ exn_str e]
        /\ last run.1
           = Some (EError ("Error during processing: " +:+ exn_str e)))
  /\ (upload_failures run.1 <> [] ->
        errors run.1 = ["Error uploading files"]
        /\ processing_steps run.1 = []
        /\ displayed run.1 = []).
Proof.
  apply (request_failures_reported world_no_credentials full_settings
           "cards-bucket" "front-image" "back-image" []).
  - vm_compute. reflexivity.
  - apply surjective_pairing.
  - vm_compute. repeat constructor.
Defined.

Lemma pipeline_order_NoDup : NoDup pipeline_order.
Proof.
  unfold pipeline_order.
  repeat (apply NoDup_cons; split;
          [intros Hin; apply list_elem_of_In in Hin; simpl in Hin;
           intuition discriminate|]).
  apply NoDup_nil. done.
Qed.

(** C8. The steps of a request are, in order, the calls of an initial
    part of [pipeline_order], in which every stage occurs once: uploads,
    then for the front side OCR, chunking, embedding, chain set-up,
    retrieval and answering, then the same for the back side.  No call is
    repeated; after the first upload, a step is started only when the one
    before it has returned; and when every call returns, each OCR call
    with a document, every stage is run exactly once. *)
Theorem pipeline_order_respected (w : World) (secrets : gmap string string)
    (bucket : string) (front_file back_file : option file)
    (process_button : bool) (h : trace) :
  secrets !! "AWS_BUCKET_NAME" = Some bucket ->
  forall tr r,
  main w secrets front_file back_file process_button h = (tr, r) ->
  follows bucket pipeline_order (steps tr)
  /\ NoDup pipeline_order
  /\ all_but_last succeeded (drop 1 (steps tr)) = true
  /\ (is_Some front_file -> is_Some back_file -> process_button = true ->
      forallb (fun e => succeeded e && negb (ocr_empty e)) (steps tr) = true ->
      length (steps tr) = length pipeline_order).
Proof.
  intros Hb.
  destruct process_button.
  2:{ intros tr r [= <- <-].
      split; [done|]. split; [apply pipeline_order_NoDup|]. by split. }
  destruct front_file as [ff|].
  2:{ intros tr r [= <- <-].
      split; [done|]. split; [apply pipeline_order_NoDup|].
      split; [done|]. by intros [? [=]]. }
  destruct back_file as [bf|].
  2:{ intros tr r [= <- <-].
      split; [done|]. split; [apply pipeline_order_NoDup|].
      split; [done|]. by intros _ [? [=]]. }
  refine (sat_run _ _ _ _). run_main Hb.
  all: observe.
  all: split; [by repeat split|].
  all: split; [apply pipeline_order_NoDup|].
  all: split; [reflexivity|].
  all: intros _ _ _ Hall; done.
Qed.

Lemma pipeline_order_respected_witness :
  let run := main (world_answering "{}") full_settings
               (Some "front-image") (Some "back-image") true [] in
  follows "cards-bucket" pipeline_order (steps run.1)
  /\ NoDup pipeline_order
  /\ all_but_last succeeded (drop 1 (steps run.1)) = true
  /\ (is_Some (Some "front-image") -> is_Some (Some "back-image") ->
      true = true ->
      forallb (fun e => succeeded e && negb (ocr_empty e)) (steps run.1) = true ->
      length (steps run.1) = length pipeline_order).
Proof.
  assert (Hb : full_settings !! "AWS_BUCKET_NAME" = Some "cards-bucket")
    by (vm_compute; reflexivity).
  exact (pipeline_order_respected (world_answering "{}") full_settings
           "cards-bucket" (Some "front-image") (Some "back-image") true []
           Hb _ _ (surjective_pairing _)).
Defined.

(** ** Storage keys *)

Lemma request_uploads (w : World) (secrets : gmap string string)
    (bucket : string) (ff bf : file) (h : trace) :
  secrets !! "AWS_BUCKET_NAME" = Some bucket ->
  (forall h' f b k, s3_upload_fileobj w h' f b k = Return tt) ->
  forall tr r,
  main w secrets (Some ff) (Some bf) true h = (tr, r) ->
  stored tr = [ (bucket, "cards/front.jpg", ff); (bucket, "cards/back.jpg", bf) ]
  /\ uploads tr = [ (bucket, "cards/front.jpg"); (bucket, "cards/back.jpg") ].
Proof.
  intros Hb Hok. refine (sat_run _ _ _ _). run_main Hb.
  all: try (rewrite Hok in Hup; discriminate Hup).
  all: try (rewrite Hok in Hup0; discriminate Hup0).
  all: observe; by split.
Qed.

Lemma request_upload_keys (w : World) (secrets : gmap string string)
    (bucket : string) (ff bf : file) (h : trace) :
  secrets !! "AWS_BUCKET_NAME" = Some bucket ->
  forall tr r,
  main w secrets (Some ff) (Some bf) true h = (tr, r) ->
  uploads tr `prefix_of`
    [ (bucket, "cards/front.jpg"); (bucket, "cards/back.jpg") ].
Proof.
  intros Hb. refine (sat_run _ _ _ _). run_main Hb.
  all: observe.
  all: first [ by exists [] | by exists [(bucket, "cards/back.jpg")] ].
Qed.

(** C9. A successful upload of [filename] returns the locator
    "s3://" ++ bucket ++ "/cards/" ++ filename.  Every request uploads
    under the keys cards/front.jpg and cards/back.jpg, in that order, and
    under no other key; so, with a store that accepts every upload, after
    two requests the store is what the second request alone would have
    left: the objects of the first one are overwritten. *)
Theorem upload_keys_fixed (w : World) (secrets : gmap string string)
    (bucket : string) :
  secrets !! "AWS_BUCKET_NAME" = Some bucket ->
  (forall f filename h,
     s3_upload_fileobj w h f bucket ("cards/" +:+ filename) = Return tt ->
     upload_to_s3 w secrets f filename "cards" h
     = ([EUpload f bucket ("cards/" +:+ filename) (Return tt)],
        Return (Some ("s3://" +:+ bucket +:+ "/cards/" +:+ filename))))
  /\ (forall front_file back_file process_button h,
        uploads (main w secrets front_file back_file process_button h).1
        `prefix_of`
        [ (bucket, "cards/front.jpg"); (bucket, "cards/back.jpg") ])
  /\ ((forall h f b k, s3_upload_fileobj w h f b k = Return tt) ->
      forall ff1 bf1 ff2 bf2 h (store : gmap (string * string) file),
        let tr1 := (main w secrets (Some ff1) (Some bf1) true h).1 in
        let tr2 := (main w secrets (Some ff2) (Some bf2) true (h ++ tr1)).1 in
        uploads tr1 = uploads tr2
        /\ s3_after (tr1 ++ tr2) store = s3_after tr2 store
        /\ s3_after tr2 store
           = <[(bucket, "cards/back.jpg") := bf2]>
               (<[(bucket, "cards/front.jpg") := ff2]> store)).
Proof.
  intros Hb. split; [|split].
  - intros f filename h Hup.
    rewrite (upload_to_s3_run w secrets bucket) by done.
    cbv zeta. change ("cards" +:+ "/" +:+ filename) with ("cards/" +:+ filename).
    by rewrite Hup.
  - intros [ff|] [bf|] [|] h; try by exists [(bucket, "cards/front.jpg"); (bucket, "cards/back.jpg")].
    eapply request_upload_keys; [done|]. apply surjective_pairing.
  - intros Hok ff1 bf1 ff2 bf2 h store tr1 tr2.
    destruct (request_uploads w secrets bucket ff1 bf1 h Hb Hok _ _
                (surjective_pairing _)) as [Hs1 Hu1].
    destruct (request_uploads w secrets bucket ff2 bf2 (h ++ tr1) Hb Hok _ _
                (surjective_pairing _)) as [Hs2 Hu2].
    fold tr1 in Hs1, Hu1. fold tr2 in Hs2, Hu2.
    split; [congruence|]. unfold s3_after. split.
    + unfold stored in *. rewrite collect_app, Hs1, Hs2. simpl.
      unfold s3_put. simpl. apply map_eq. intros i.
      rewrite !lookup_insert. by repeat case_decide.
    + by rewrite Hs2.
Qed.

Lemma upload_keys_fixed_witness :
  upload_to_s3 (world_answering "{}") full_settings "front-image"
    "front.jpg" "cards" []
  = ([EUpload "front-image" "cards-bucket" "cards/front.jpg" (Return tt)],
     Return (Some "s3://cards-bucket/cards/front.jpg"))
  /\ (let tr1 := (main (world_answering "{}") full_settings
                    (Some "first-front") (Some "first-back") true []).1 in
      let tr2 := (main (world_answering "{}") full_settings
                    (Some "second-front") (Some "second-back") true
                    ([] ++ tr1)).1 in
      uploads tr1 = uploads tr2
      /\ s3_after (tr1 ++ tr2) ∅ = s3_after tr2 ∅
      /\ s3_after tr2 ∅
         = <[("cards-bucket", "cards/back.jpg") := "second-back"]>
             (<[("cards-bucket", "cards/front.jpg") := "second-front"]> ∅)).
Proof.
  assert (Hb : full_settings !! "AWS_BUCKET_NAME" = Some "cards-bucket")
    by (vm_compute; reflexivity).
  destruct (upload_keys_fixed (world_answering "{}") full_settings
              "cards-bucket" Hb) as (Hloc & _ & Hstore).
  split.
  - apply (Hloc "front-image" "front.jpg" []). reflexivity.
  - apply (Hstore (fun _ _ _ _ => eq_refl)).
Defined.

(** ** Configuration *)

Lemma dict_of_secrets_present (st_secrets : gmap string string)
    (keys : list string) (acc : gmap string string) :
  (forall k, k ∈ keys -> is_Some (st_secrets !! k)) ->
  exists m, dict_of_secrets st_secrets keys acc = Return m
            /\ forall k, m !! k = if decide (k ∈ keys) then st_secrets !! k
                                  else acc !! k.
Proof.
  revert acc. induction keys as [|s keys IH]; intros acc Hall;
    cbn [dict_of_secrets].
  - exists acc. split; [done|]. intros k.
    rewrite decide_False; [done|]. apply not_elem_of_nil.
  - destruct (Hall s) as [v Hv]; [by left|]. rewrite Hv.
    destruct (IH (<[s:=v]> acc)) as (m & -> & Hm).
    { intros k Hk. apply Hall. by right. }
    exists m. split; [done|]. intros k. rewrite Hm.
    destruct (decide (k ∈ keys)) as [Hin|Hnin].
    + rewrite decide_True; [done|by right].
    + destruct (decide (k = s)) as [->|Hne].
      * rewrite lookup_insert_eq, decide_True; [done|by left].
      * rewrite lookup_insert_ne by done.
        rewrite decide_False; [done|].
        intros Hin. apply elem_of_cons in Hin. by destruct Hin.
Qed.

Lemma script_configured (w : World) (st_secrets secrets : gmap string string)
    front_file back_file process_button h :
  get_secrets st_secrets = Return secrets ->
  script w st_secrets front_file back_file process_button h
  = main w secrets front_file back_file process_button h.
Proof.
  intros Hs. unfold script, bind, lift. rewrite Hs, app_nil_r.
  by destruct (main w secrets front_file back_file process_button h).
Qed.

(** C4. If a required setting is absent, [get_secrets] raises a
    ValueError whose message lists exactly the absent settings, and the
    script stops there: no event of any request happens.  If the six
    settings are present, [get_secrets] returns the dict that has exactly
    those six keys, each with its configured value, and the script goes on
    to [main] with it. *)
Theorem get_secrets_all_or_abort (st_secrets : gmap string string) :
  ((exists k, k ∈ required_secrets /\ st_secrets !! k = None) ->
   exists missing,
     missing <> []
     /\ (forall k, k ∈ missing <->
                   k ∈ required_secrets /\ st_secrets !! k = None)
     /\ get_secrets st_secrets
        = Raise (Exn ValueError ("Missing required secrets: "
                                 +:+ String.concat ", " missing))
     /\ forall w front_file back_file process_button h,
          script w st_secrets front_file back_file process_button h
          = ([], Raise (Exn ValueError ("Missing required secrets: "
                                        +:+ String.concat ", " missing))))
  /\ ((forall k, k ∈ required_secrets -> is_Some (st_secrets !! k)) ->
      exists secrets,
        get_secrets st_secrets = Return secrets
        /\ dom secrets = list_to_set required_secrets
        /\ (forall k, k ∈ required_secrets ->
                      secrets !! k = st_secrets !! k)
        /\ forall w front_file back_file process_button h,
             script w st_secrets front_file back_file process_button h
             = main w secrets front_file back_file process_button h).
Proof.
  split.
  - intros (k & Hk & Hnone).
    exists (filter (fun secret => st_secrets !! secret = None) required_secrets).
    assert (Hin : k ∈ filter (fun secret => st_secrets !! secret = None)
                      required_secrets)
      by (by apply list_elem_of_filter).
    assert (Hget : get_secrets st_secrets
                   = Raise (Exn ValueError
                              ("Missing required secrets: "
                               +:+ String.concat ", "
                                     (filter (fun secret =>
                                                st_secrets !! secret = None)
                                        required_secrets)))).
    { unfold get_secrets.
      destruct (filter _ required_secrets) as [|m ms]; [|done].
      by destruct (not_elem_of_nil k). }
    split; [|split; [|split]].
    + intros Heq. rewrite Heq in Hin. by destruct (not_elem_of_nil k).
    + intros k'. rewrite list_elem_of_filter. tauto.
    + exact Hget.
    + intros w ff bf b h. unfold script, bind, lift. by rewrite Hget.
  - intros Hall.
    assert (Hfilter : filter (fun secret => st_secrets !! secret = None)
                        required_secrets = []).
    { destruct (filter _ required_secrets) as [|m ms] eqn:Hf; [done|].
      assert (Hm : m ∈ filter (fun secret => st_secrets !! secret = None)
                       required_secrets) by (rewrite Hf; by left).
      apply list_elem_of_filter in Hm as [Hnone Hm].
      destruct (Hall m Hm) as [v Hv]. congruence. }
    destruct (dict_of_secrets_present st_secrets required_secrets ∅ Hall)
      as (m & Hm & Hlook).
    assert (Hget : get_secrets st_secrets = Return m).
    { unfold get_secrets. by rewrite Hfilter. }
    exists m. split; [exact Hget|]. split; [|split].
    + apply set_eq. intros k.
      rewrite elem_of_dom, elem_of_list_to_set, Hlook.
      destruct (decide (k ∈ required_secrets)) as [Hin|Hnin].
      * split; [done|]. intros _. by apply Hall.
      * rewrite lookup_empty. split; [by intros [? ?]|done].
    + intros k Hk. rewrite Hlook. by rewrite decide_True.
    + intros w ff bf b h. by apply script_configured.
Qed.

Lemma get_secrets_all_or_abort_witness :
  (exists missing,
     missing <> []
     /\ (forall k, k ∈ missing <->
                   k ∈ required_secrets /\ settings_without_region !! k = None)
     /\ get_secrets settings_without_region
        = Raise (Exn ValueError ("Missing required secrets: "
                                 +:+ String.concat ", " missing))
     /\ forall w front_file back_file process_button h,
          script w settings_without_region front_file back_file
            process_button h
          = ([], Raise (Exn ValueError ("Missing required secrets: "
                                        +:+ String.concat ", " missing))))
  /\ (exists secrets,
        get_secrets full_settings = Return secrets
        /\ dom secrets = list_to_set required_secrets
        /\ (forall k, k ∈ required_secrets ->
                      secrets !! k = full_settings !! k)
        /\ forall w front_file back_file process_button h,
             script w full_settings front_file back_file process_button h
             = main w secrets front_file back_file process_button h).
Proof.
  split.
  - apply (proj1 (get_secrets_all_or_abort settings_without_region)).
    exists "AWS_REGION". split.
    + unfold required_secrets. repeat constructor.
    + vm_compute. reflexivity.
  - apply (proj2 (get_secrets_all_or_abort full_settings)).
    intros k Hk. apply list_elem_of_In in Hk. simpl in Hk.
    repeat (destruct Hk as [<-|Hk]; [vm_compute; eauto|]).
    destruct Hk.
Defined.

(** ** Determinism of the splitting step *)

Lemma process_and_query_splits (w : World) (text query : string) (h : trace) :
  splits (process_and_query w text query h).1 = [split_text text].
Proof.
  change (sat (process_and_query w text query) h
            (fun tr _ => splits tr = [split_text text])).
  unfold process_and_query. wp; observe; reflexivity.
Qed.

(** Texts of the same length are cut at the same places. *)
Lemma split_text_boundaries (T1 T2 : string) :
  String.length T1 = String.length T2 ->
  map String.length (split_text T1) = map String.length (split_text T2).
Proof.
  intros Hlen. unfold split_text. rewrite !map_map.
  rewrite (map_ext _ (fun l : list ascii => length l))
    by (intros; apply length_of_list_ascii).
  rewrite (map_ext (fun x => String.length (string_of_list_ascii x))
             (fun l : list ascii => length l))
    by (intros; apply length_of_list_ascii).
  apply (pack_lengths chunk_size chunk_overlap overlap_lt_size); [done|].
  by rewrite !length_chars.
Qed.

(** C7. Two runs of the splitting step on the same text give the same
    chunk sequence, whatever the services, the query and the history of
    each run: the same chunks, hence the same count and the same
    boundaries. *)
Theorem chunker_deterministic (w1 w2 : World) (q1 q2 : string)
    (h1 h2 : trace) (T1 T2 : string) :
  T1 = T2 ->
  splits (process_and_query w1 T1 q1 h1).1
  = splits (process_and_query w2 T2 q2 h2).1
  /\ split_text T1 = split_text T2
  /\ length (split_text T1) = length (split_text T2)
  /\ map String.length (split_text T1) = map String.length (split_text T2).
Proof.
  intros ->. rewrite !process_and_query_splits. repeat split.
Qed.

Lemma chunker_deterministic_witness :
  splits (process_and_query (world_answering "{}") "Name: A. Sample"
            front_query []).1
  = splits (process_and_query world_no_credentials "Name: A. Sample"
              back_query [ESpinner "Processing your cards..."]).1
  /\ split_text "Name: A. Sample" = split_text "Name: A. Sample"
  /\ length (split_text "Name: A. Sample")
     = length (split_text "Name: A. Sample")
  /\ map String.length (split_text "Name: A. Sample")
     = map String.length (split_text "Name: A. Sample").
Proof.
  apply (chunker_deterministic (world_answering "{}") world_no_credentials
           front_query back_query [] [ESpinner "Processing your cards..."]
           "Name: A. Sample" "Name: A. Sample").
  reflexivity.
Defined.

(** ** Runs on concrete inputs *)

(** A text of 1000 units: windows start at 0, 480 and 960. *)
Example split_text_1000 :
  map String.length
    (split_text (string_of_list_ascii (repeat "a"%char 1000)))
  = [512; 512; 40].
Proof. vm_compute. reflexivity. Qed.

(** A text of exactly 512 units is one chunk; one more unit opens a
    second chunk of 33 units, 32 of them shared with the first. *)
Example split_text_512_513 :
  map String.length
    (split_text (string_of_list_ascii (repeat "a"%char 512))) = [512]
  /\ map String.length
       (split_text (string_of_list_ascii (repeat "a"%char 513))) = [512; 33].
Proof. split; vm_compute; reflexivity. Qed.

Example get_secrets_names_the_region :
  get_secrets settings_without_region
  = Raise (Exn ValueError "Missing required secrets: AWS_REGION").
Proof. vm_compute. reflexivity. Qed.

(** Both answers parse: the two headings are shown, no error. *)
Example request_with_empty_records :
  let run := main (world_answering "{}") full_settings
               (Some "front-image") (Some "back-image") true [] in
  run.2 = Return tt
  /\ errors run.1 = []
  /\ displayed run.1 = [front_header; back_header]
  /\ length (steps run.1) = 14.
Proof. vm_compute. repeat split. Qed.

(** No credentials: both uploads are attempted, then the upload error. *)
Example request_without_credentials :
  main world_no_credentials full_settings
    (Some "front-image") (Some "back-image") true []
  = ([ ESpinner "Processing your cards...";
       EUpload "front-image" "cards-bucket" "cards/front.jpg"
         (Raise (Exn NoCredentialsError "Unable to locate credentials"));
       EUpload "back-image" "cards-bucket" "cards/back.jpg"
         (Raise (Exn NoCredentialsError "Unable to locate credentials"));
       EError "Error uploading files" ],
     Return tt).
Proof. vm_compute. reflexivity. Qed.

(** ** More on the parts *)

(** X1. With the bucket configured, [upload_to_s3] makes exactly one
    upload attempt, under the key cards/<filename>.  It never raises
    NoCredentialsError: that failure gives [None], and only that one.
    What it returns is true in a test exactly when the upload succeeded,
    and any other exception of the store comes out as raised. *)
Theorem upload_to_s3_outcomes (w : World) (secrets : gmap string string)
    (bucket : string) (f : file) (filename : string) (h : trace) :
  secrets !! "AWS_BUCKET_NAME" = Some bucket ->
  forall tr r,
  upload_to_s3 w secrets f filename "cards" h = (tr, r) ->
  exists o,
    tr = [EUpload f bucket ("cards/" +:+ filename) o]
    /\ match r with
       | Return p =>
           truthy p = succeeded (EUpload f bucket ("cards/" +:+ filename) o)
           /\ (p = None <->
               exists e, o = Raise e /\ exn_cls e = NoCredentialsError)
       | Raise e => o = Raise e /\ exn_cls e <> NoCredentialsError
       end.
Proof.
  intros Hb tr r. rewrite (upload_to_s3_run w secrets bucket) by done.
  cbv zeta. change ("cards" +:+ "/" +:+ filename) with ("cards/" +:+ filename).
  destruct (s3_upload_fileobj w h f bucket ("cards/" +:+ filename))
    as [[]|e] eqn:Ho; intros [= <- <-].
  - exists (Return tt). split; [done|]. split; [done|].
    split; [done|]. by intros (e & [=] & _).
  - exists (Raise e). split; [done|].
    unfold is_NoCredentialsError.
    destruct (exn_cls e) eqn:Hc; try (split; [done|congruence]).
    split; [done|]. split; [|done]. intros _. by exists e.
Qed.

Lemma upload_to_s3_outcomes_witness :
  exists o,
    (upload_to_s3 world_no_credentials full_settings "front-image"
       "front.jpg" "cards" []).1
    = [EUpload "front-image" "cards-bucket" ("cards/" +:+ "front.jpg") o]
    /\ match (upload_to_s3 world_no_credentials full_settings "front-image"
                "front.jpg" "cards" []).2 with
       | Return p =>
           truthy p = succeeded (EUpload "front-image" "cards-bucket"
                                   ("cards/" +:+ "front.jpg") o)
           /\ (p = None <->
               exists e, o = Raise e /\ exn_cls e = NoCredentialsError)
       | Raise e => o = Raise e /\ exn_cls e <> NoCredentialsError
       end.
Proof.
  assert (Hb : full_settings !! "AWS_BUCKET_NAME" = Some "cards-bucket")
    by (vm_compute; reflexivity).
  exact (upload_to_s3_outcomes world_no_credentials full_settings
           "cards-bucket" "front-image" "front.jpg" [] Hb _ _
           (surjective_pairing _)).
Defined.

(** ** More on the configuration *)





(** ** More on the submission handler *)

Lemma sat_show_side_exact w header data h
    (Q : trace -> outcome unit -> Prop) :
  (forall items, data = JDict items ->
     Q (EMarkdown header
          :: map (fun kv => EMarkdown (field_html kv.1 (py_str w kv.2))) items)
       (Return tt)) ->
  (is_dict data = false ->
     Q [EMarkdown header]
       (Raise (Exn AttributeError
                 ("'" +:+ type_name data
                  +:+ "' object has no attribute 'items'")))) ->
  sat (show_side w header data) h Q.
Proof.
  intros Hd He. apply sat_show_side. destruct data; try (by apply He).
  by apply Hd.
Qed.

Lemma collect_shown (g : string * json -> string)
    (items : list (string * json)) :
  collect (fun e => match e with EMarkdown html => Some html | _ => None end)
    (map (fun kv => EMarkdown (g kv)) items)
  = map g items.
Proof. induction items as [|kv items IH]; simpl; congruence. Qed.

(** As [main_step], keeping the message of a failed [.items()]. *)
Ltac main_step_exact Hb :=
  lazymatch goal with
  | |- sat (show_side _ _ _) _ _ =>
      let items := fresh "items" in
      apply sat_show_side_exact; [intros items ->|intros ?]
  | _ => main_step Hb
  end.

Ltac run_main_exact Hb :=
  unfold main; repeat (main_step_exact Hb; cbv beta iota zeta).

Ltac observe_more :=
  unfold empty_ocr, field_blocks, items_error in *; observe;
  repeat first
    [ rewrite collect_shown
    | rewrite collect_fields by done
    | rewrite app_nil_r
    | progress simpl ].

(** X4. When both answers parse to JSON objects, [main] returns
    normally with no error message and shows, in this order, the front
    heading, one block per front item in the order of the items, the back
    heading, and one block per back item. *)
Theorem parsed_records_displayed (w : World) (secrets : gmap string string)
    (ff bf : file) (h : trace) (out_f out_b : string)
    (items_f items_b : list (string * json)) :
  forall tr r,
  main w secrets (Some ff) (Some bf) true h = (tr, r) ->
  answers tr = [out_f; out_b] ->
  json_loads w out_f = Some (JDict items_f) ->
  json_loads w out_b = Some (JDict items_b) ->
  r = Return tt
  /\ errors tr = []
  /\ displayed tr
     = front_header :: field_blocks w items_f
       ++ back_header :: field_blocks w items_b.
Proof.
  destruct (secrets !! "AWS_BUCKET_NAME") as [bucket|] eqn:Hb.
  2:{ intros tr r. rewrite main_unconfigured by done. by intros [= <- <-]. }
  refine (sat_run _ _ _ _). run_main_exact Hb.
  all: observe_more; intros Hans Hf Hbk; simplify_eq.
  done.
Qed.

(** X5. An answer that is valid JSON but not an object is reported by
    the general handler, with the message of the failed [.items()] call.
    If it is the front answer, only the front heading has been shown; if
    the front answer is an object and the back one is not, the front
    fields and the back heading are already on the page when the error is
    shown. *)
Theorem non_object_answer_reported (w : World)
    (secrets : gmap string string) (ff bf : file) (h : trace)
    (out_f out_b : string) (v_f v_b : json) :
  forall tr r,
  main w secrets (Some ff) (Some bf) true h = (tr, r) ->
  answers tr = [out_f; out_b] ->
  json_loads w out_f = Some v_f ->
  json_loads w out_b = Some v_b ->
  (is_dict v_f = false ->
     r = Return tt
     /\ displayed tr = [front_header]
     /\ errors tr = [items_error v_f])
  /\ (forall items_f, v_f = JDict items_f -> is_dict v_b = false ->
        r = Return tt
        /\ displayed tr = front_header :: field_blocks w items_f
                          ++ [back_header]
        /\ errors tr = [items_error v_b]).
Proof.
  destruct (secrets !! "AWS_BUCKET_NAME") as [bucket|] eqn:Hb.
  2:{ intros tr r. rewrite main_unconfigured by done. by intros [= <- <-]. }
  refine (sat_run _ _ _ _). run_main_exact Hb.
  all: observe_more; intros Hans Hf Hbk; simplify_eq.
  all: split; [intros Hnd|intros items' Heq Hnd]; simplify_eq/=; try done.
Qed.

(** X6. When OCR returns no document for an image, [documents[0]]
    fails and the request ends there: the empty OCR call is the last step,
    there is exactly one such call, the only message is
    "Error during processing: list index out of range", nothing is
    displayed and [main] returns normally. *)
Theorem blank_image_reported (w : World) (secrets : gmap string string)
    (ff bf : file) (h : trace) :
  forall tr r,
  main w secrets (Some ff) (Some bf) true h = (tr, r) ->
  empty_ocr tr <> [] ->
  r = Return tt
  /\ errors tr = ["Error during processing: list index out of range"]
  /\ displayed tr = []
  /\ length (empty_ocr tr) = 1
  /\ option_map ocr_empty (last (steps tr)) = Some true.
Proof.
  destruct (secrets !! "AWS_BUCKET_NAME") as [bucket|] eqn:Hb.
  2:{ intros tr r. rewrite main_unconfigured by done. by intros [= <- <-]. }
  refine (sat_run _ _ _ _). run_main_exact Hb.
  all: observe_more; intros Hne; try done.
Qed.

(** X7. No step after the uploads is taken unless both uploads
    succeeded, each image stored under its own key; and unless an upload
    fails with an error other than NoCredentialsError, both uploads are
    attempted, the back one also after the front one failed. *)
Theorem uploads_gate_processing (w : World) (secrets : gmap string string)
    (bucket : string) (ff bf : file) (h : trace) :
  secrets !! "AWS_BUCKET_NAME" = Some bucket ->
  forall tr r,
  main w secrets (Some ff) (Some bf) true h = (tr, r) ->
  (processing_steps tr <> [] ->
     upload_failures tr = []
     /\ stored tr = [ (bucket, "cards/front.jpg", ff);
                      (bucket, "cards/back.jpg", bf) ])
  /\ (Forall (fun e => exn_cls e = NoCredentialsError) (upload_failures tr) ->
      uploads tr = [ (bucket, "cards/front.jpg"); (bucket, "cards/back.jpg") ]).
Proof.
  intros Hb. refine (sat_run _ _ _ _). run_main Hb.
  all: observe; split; [intros Hne; try done|intros Hcred; try done].
  all: repeat match goal with
         | H : Forall _ (_ :: _) |- _ => inversion H; clear H; subst
         | H : is_NoCredentialsError ?e = false, H' : exn_cls ?e = _ |- _ =>
             unfold is_NoCredentialsError in H; rewrite H' in H; discriminate
         end.
Qed.

Lemma last_cons_app {A} (x : A) (l : list A) (y : A) (l2 : list A) :
  last (x :: l ++ y :: l2) = last (y :: l2).
Proof.
  revert x. induction l as [|z l IH]; intros x; [done|].
  rewrite <- (IH z). reflexivity.
Qed.

#[local] Arguments last : simpl never.

Ltac solve_last :=
  repeat first [ rewrite last_cons_cons | rewrite last_cons_app ];
  reflexivity.

(** X9. A run of [main] shows at most one error or warning message.
    An error message is the last event of the run, which then returns
    normally; a warning is the only event of its run. *)
Theorem at_most_one_message (w : World) (secrets : gmap string string)
    (front_file back_file : option file) (process_button : bool)
    (h : trace) (tr : trace) (r : outcome unit) :
  main w secrets front_file back_file process_button h = (tr, r) ->
  length (errors tr ++ warnings tr) <= 1
  /\ (forall msg, In msg (errors tr) ->
        r = Return tt /\ last tr = Some (EError msg))
  /\ (forall msg, In msg (warnings tr) -> tr = [EWarning msg]).
Proof.
  revert tr r.
  destruct process_button.
  2:{ intros tr r [= <- <-]. simpl. split; [lia|]. by split. }
  destruct front_file as [ff|].
  2:{ intros tr r [= <- <-]. simpl. split; [lia|].
      split; [done|]. by intros msg [<-|[]]. }
  destruct back_file as [bf|].
  2:{ intros tr r [= <- <-]. simpl. split; [lia|].
      split; [done|]. by intros msg [<-|[]]. }
  destruct (secrets !! "AWS_BUCKET_NAME") as [bucket|] eqn:Hb.
  2:{ intros tr r. rewrite main_unconfigured by done. intros [= <- <-].
      simpl. split; [lia|]. by split. }
  refine (sat_run _ _ _ _). run_main Hb.
  all: observe; split; [lia|].
  all: split; intros msg Hin; simpl in Hin; try done.
  all: destruct Hin as [<-|[]]; split; [done|solve_last].
Qed.

(** X10. Nothing is displayed unless both answers were obtained and
    both parsed as JSON, no upload and no service call having failed; the
    first thing displayed is the front heading. *)
Theorem display_needs_both_parsed (w : World) (secrets : gmap string string)
    (front_file back_file : option file) (process_button : bool)
    (h : trace) (tr : trace) (r : outcome unit) :
  main w secrets front_file back_file process_button h = (tr, r) ->
  displayed tr <> [] ->
  exists out_f out_b v_f v_b,
    answers tr = [out_f; out_b]
    /\ json_loads w out_f = Some v_f
    /\ json_loads w out_b = Some v_b
    /\ head (displayed tr) = Some front_header
    /\ upload_failures tr = []
    /\ processing_failures tr = [].
Proof.
  revert tr r.
  destruct process_button; [|by intros tr r [= <- <-]].
  destruct front_file as [ff|]; [|by intros tr r [= <- <-]].
  destruct back_file as [bf|]; [|by intros tr r [= <- <-]].
  destruct (secrets !! "AWS_BUCKET_NAME") as [bucket|] eqn:Hb.
  2:{ intros tr r. rewrite main_unconfigured by done. by intros [= <- <-]. }
  refine (sat_run _ _ _ _). run_main_exact Hb.
  all: observe_more; intros Hne; try done.
  all: eexists _, _, _, _; repeat split; eassumption.
Qed.

(** X11. In every run, each processing step works on what the step
    before it produced: the text split is the text of the first document
    of the OCR call just made, the texts indexed are the chunks just
    produced, the model is asked the query of the search just made over
    the documents that search returned, and a step is only followed by
    another when it returned. *)
Theorem steps_feed_each_other (w : World) (secrets : gmap string string)
    (front_file back_file : option file) (process_button : bool)
    (h : trace) (tr : trace) (r : outcome unit) :
  main w secrets front_file back_file process_button h = (tr, r) ->
  linked (processing_steps tr).
Proof.
  revert tr r.
  destruct process_button; [|by intros tr r [= <- <-]].
  destruct front_file as [ff|]; [|by intros tr r [= <- <-]].
  destruct back_file as [bf|]; [|by intros tr r [= <- <-]].
  destruct (secrets !! "AWS_BUCKET_NAME") as [bucket|] eqn:Hb.
  2:{ intros tr r. rewrite main_unconfigured by done. by intros [= <- <-]. }
  refine (sat_run _ _ _ _). run_main Hb.
  all: observe; by repeat split.
Qed.

(** ** The store and the script as a whole *)

Lemma stored_cases (w : World) (secrets : gmap string string)
    (bucket : string) (ff bf : file) (h : trace) :
  secrets !! "AWS_BUCKET_NAME" = Some bucket ->
  forall tr r,
  main w secrets (Some ff) (Some bf) true h = (tr, r) ->
  stored tr `sublist_of`
    [ (bucket, "cards/front.jpg", ff); (bucket, "cards/back.jpg", bf) ].
Proof.
  intros Hb. refine (sat_run _ _ _ _). run_main Hb.
  all: observe.
  all: first [ apply sublist_nil_l
             | reflexivity
             | apply sublist_skip; apply sublist_nil_l
             | apply sublist_cons; apply sublist_skip; apply sublist_nil_l ].
Qed.

Lemma s3_after_frame (objs : list (string * string * file))
    (store : gmap (string * string) file) (key : string * string) :
  key ∉ map fst objs ->
  foldl s3_put store objs !! key = store !! key.
Proof.
  revert store. induction objs as [|o objs IH]; intros store Hk; [done|].
  simpl. rewrite IH.
  - unfold s3_put. apply lookup_insert_ne. intros Heq. apply Hk.
    rewrite <- Heq. by left.
  - intros Hin. apply Hk. by right.
Qed.

Lemma s3_after_origin (objs : list (string * string * file))
    (store : gmap (string * string) file) (key : string * string) (x : file) :
  foldl s3_put store objs !! key = Some x ->
  (key, x) ∈ objs \/ store !! key = Some x.
Proof.
  revert store. induction objs as [|o objs IH]; intros store; [by right|].
  simpl. intros Hx. destruct (IH _ Hx) as [Hin|Hst].
  - left. by right.
  - unfold s3_put in Hst. rewrite lookup_insert in Hst.
    case_decide as Hk; [|by right].
    left. destruct o as [k v]. simpl in *. simplify_eq. by left.
Qed.

(** X12. Whatever the services do, a run of [main] leaves every object
    of the store other than cards/front.jpg and cards/back.jpg of the
    configured bucket as it was, and an object found in the store after
    the run either was there before or is the front image under
    cards/front.jpg or the back image under cards/back.jpg. *)
Theorem other_objects_untouched (w : World) (secrets : gmap string string)
    (bucket : string) (front_file back_file : option file)
    (process_button : bool) (h : trace)
    (store : gmap (string * string) file) :
  secrets !! "AWS_BUCKET_NAME" = Some bucket ->
  forall tr r,
  main w secrets front_file back_file process_button h = (tr, r) ->
  (forall key, key <> (bucket, "cards/front.jpg") ->
               key <> (bucket, "cards/back.jpg") ->
               s3_after tr store !! key = store !! key)
  /\ (forall key x, s3_after tr store !! key = Some x ->
        store !! key = Some x
        \/ (key = (bucket, "cards/front.jpg") /\ front_file = Some x)
        \/ (key = (bucket, "cards/back.jpg") /\ back_file = Some x)).
Proof.
  intros Hb tr r Hrun.
  assert (Hsub : exists ff bf,
            stored tr `sublist_of`
              [ (bucket, "cards/front.jpg", ff); (bucket, "cards/back.jpg", bf) ]
            /\ (stored tr <> [] -> front_file = Some ff /\ back_file = Some bf)).
  { destruct process_button.
    2:{ injection Hrun as <- <-. exists "", "". split; [apply sublist_nil_l|done]. }
    destruct front_file as [ff|].
    2:{ injection Hrun as <- <-. exists "", "". split; [apply sublist_nil_l|done]. }
    destruct back_file as [bf|].
    2:{ injection Hrun as <- <-. exists "", "". split; [apply sublist_nil_l|done]. }
    exists ff, bf. split; [|done]. by eapply stored_cases. }
  destruct Hsub as (ff & bf & Hsub & Hfiles). unfold s3_after. split.
  - intros key Hf Hbk. apply s3_after_frame. intros Hin.
    apply list_elem_of_fmap in Hin as (o & -> & Ho).
    eapply elem_of_sublist in Ho; [|exact Hsub].
    apply list_elem_of_In in Ho. simpl in Ho.
    destruct Ho as [<-|[<-|[]]]; simpl in *; congruence.
  - intros key x Hx. apply s3_after_origin in Hx as [Hin|Hst]; [|by left].
    right. assert (Hne : stored tr <> []) by (intros Heq; rewrite Heq in Hin; by apply not_elem_of_nil in Hin).
    destruct (Hfiles Hne) as [-> ->].
    eapply elem_of_sublist in Hin; [|exact Hsub].
    apply list_elem_of_In in Hin. simpl in Hin.
    destruct Hin as [[= <- <-]|[[= <- <-]|[]]]; [by left|by right].
Qed.



(** X13. [process_and_query] first splits the text, and each of its
    steps works on what the one before produced.  If it returns, it made
    the five steps, none failed, and its result is the model's single
    answer; if it raises, the model gave no answer, exactly one call
    failed, it was the last one made, and the exception is that call's. *)
Theorem process_and_query_result (w : World) (text query : string)
    (h : trace) (tr : trace) (r : outcome string) :
  process_and_query w text query h = (tr, r) ->
  head tr = Some (ESplit text (split_text text))
  /\ linked tr
  /\ match r with
     | Return out =>
         answers tr = [out] /\ length tr = 5 /\ processing_failures tr = []
     | Raise e =>
         answers tr = [] /\ processing_failures tr = [e]
         /\ option_map failure_of (last tr) = Some (Some e)
     end.
Proof.
  revert tr r. refine (sat_run _ _ _ _).
  unfold process_and_query. wp; observe; by repeat split.
Qed.

(** ** The further properties on concrete runs *)


Lemma full_settings_bucket :
  full_settings !! "AWS_BUCKET_NAME" = Some "cards-bucket".
Proof. vm_compute. reflexivity. Defined.


Lemma parsed_records_displayed_witness :
  let run := main (world_two_answers name_record "{}") full_settings
               (Some "front-image") (Some "back-image") true [] in
  run.2 = Return tt
  /\ errors run.1 = []
  /\ displayed run.1
     = front_header
       :: field_blocks (world_two_answers name_record "{}")
            [("Name", JStr "A. Sample")]
       ++ back_header
          :: field_blocks (world_two_answers name_record "{}") [].
Proof.
  apply (parsed_records_displayed (world_two_answers name_record "{}")
           full_settings "front-image" "back-image" [] name_record "{}"
           [("Name", JStr "A. Sample")] [] _ _ (surjective_pairing _)).
  - vm_compute. reflexivity.
  - vm_compute. reflexivity.
  - vm_compute. reflexivity.
Defined.

Lemma non_object_answer_reported_witness :
  let run := main (world_two_answers name_record "[]") full_settings
               (Some "front-image") (Some "back-image") true [] in
  (is_dict (JDict [("Name", JStr "A. Sample")]) = false ->
     run.2 = Return tt
     /\ displayed run.1 = [front_header]
     /\ errors run.1 = [items_error (JDict [("Name", JStr "A. Sample")])])
  /\ (forall items_f,
        JDict [("Name", JStr "A. Sample")] = JDict items_f ->
        is_dict (JList []) = false ->
        run.2 = Return tt
        /\ displayed run.1
           = front_header
             :: field_blocks (world_two_answers name_record "[]") items_f
             ++ [back_header]
        /\ errors run.1 = [items_error (JList [])]).
Proof.
  apply (non_object_answer_reported (world_two_answers name_record "[]")
           full_settings "front-image" "back-image" [] name_record "[]"
           (JDict [("Name", JStr "A. Sample")]) (JList []) _ _
           (surjective_pairing _)).
  - vm_compute. reflexivity.
  - vm_compute. reflexivity.
  - vm_compute. reflexivity.
Defined.

Lemma blank_image_reported_witness :
  let run := main world_blank_image full_settings
               (Some "front-image") (Some "back-image") true [] in
  run.2 = Return tt
  /\ errors run.1 = ["Error during processing: list index out of range"]
  /\ displayed run.1 = []
  /\ length (empty_ocr run.1) = 1
  /\ option_map ocr_empty (last (steps run.1)) = Some true.
Proof.
  apply (blank_image_reported world_blank_image full_settings
           "front-image" "back-image" [] _ _ (surjective_pairing _)).
  vm_compute. discriminate.
Defined.

Lemma uploads_gate_processing_witness :
  let run := main (world_answering "{}") full_settings
               (Some "front-image") (Some "back-image") true [] in
  (processing_steps run.1 <> [] ->
     upload_failures run.1 = []
     /\ stored run.1 = [ ("cards-bucket", "cards/front.jpg", "front-image");
                         ("cards-bucket", "cards/back.jpg", "back-image") ])
  /\ (Forall (fun e => exn_cls e = NoCredentialsError)
        (upload_failures run.1) ->
      uploads run.1 = [ ("cards-bucket", "cards/front.jpg");
                        ("cards-bucket", "cards/back.jpg") ]).
Proof.
  exact (uploads_gate_processing (world_answering "{}") full_settings
           "cards-bucket" "front-image" "back-image" []
           full_settings_bucket _ _ (surjective_pairing _)).
Defined.


Lemma at_most_one_message_witness :
  let run := main (world_answering "not json") full_settings
               (Some "front-image") (Some "back-image") true [] in
  length (errors run.1 ++ warnings run.1) <= 1
  /\ (forall msg, In msg (errors run.1) ->
        run.2 = Return tt /\ last run.1 = Some (EError msg))
  /\ (forall msg, In msg (warnings run.1) -> run.1 = [EWarning msg]).
Proof.
  exact (at_most_one_message (world_answering "not json") full_settings
           (Some "front-image") (Some "back-image") true [] _ _
           (surjective_pairing _)).
Defined.

Lemma display_needs_both_parsed_witness :
  let tr := (main (world_answering "{}") full_settings
               (Some "front-image") (Some "back-image") true []).1 in
  exists out_f out_b v_f v_b,
    answers tr = [out_f; out_b]
    /\ json_loads (world_answering "{}") out_f = Some v_f
    /\ json_loads (world_answering "{}") out_b = Some v_b
    /\ head (displayed tr) = Some front_header
    /\ upload_failures tr = []
    /\ processing_failures tr = [].
Proof.
  apply (display_needs_both_parsed (world_answering "{}") full_settings
           (Some "front-image") (Some "back-image") true [] _ _
           (surjective_pairing _)).
  vm_compute. discriminate.
Defined.

Lemma steps_feed_each_other_witness :
  linked (processing_steps
            (main (world_answering "{}") full_settings
               (Some "front-image") (Some "back-image") true []).1).
Proof.
  exact (steps_feed_each_other (world_answering "{}") full_settings
           (Some "front-image") (Some "back-image") true [] _ _
           (surjective_pairing _)).
Defined.

Lemma other_objects_untouched_witness :
  let tr := (main (world_answering "{}") full_settings
               (Some "front-image") (Some "back-image") true []).1 in
  let store : gmap (string * string) file :=
    {[ ("cards-bucket", "archive/2023.jpg") := "old-image" ]} in
  (forall key, key <> ("cards-bucket", "cards/front.jpg") ->
               key <> ("cards-bucket", "cards/back.jpg") ->
               s3_after tr store !! key = store !! key)
  /\ (forall key x, s3_after tr store !! key = Some x ->
        store !! key = Some x
        \/ (key = ("cards-bucket", "cards/front.jpg")
            /\ Some "front-image" = Some x)
        \/ (key = ("cards-bucket", "cards/back.jpg")
            /\ Some "back-image" = Some x)).
Proof.
  exact (other_objects_untouched (world_answering "{}") full_settings
           "cards-bucket" (Some "front-image") (Some "back-image") true []
           {[ ("cards-bucket", "archive/2023.jpg") := "old-image" ]}
           full_settings_bucket _ _ (surjective_pairing _)).
Defined.

Lemma process_and_query_result_witness :
  let run := process_and_query (world_answering "{}") "Name: A. Sample"
               front_query [] in
  head run.1 = Some (ESplit "Name: A. Sample" (split_text "Name: A. Sample"))
  /\ linked run.1
  /\ match run.2 with
     | Return out =>
         answers run.1 = [out] /\ length run.1 = 5
         /\ processing_failures run.1 = []
     | Raise e =>
         answers run.1 = [] /\ processing_failures run.1 = [e]
         /\ option_map failure_of (last run.1) = Some (Some e)
     end.
Proof.
  exact (process_and_query_result (world_answering "{}") "Name: A. Sample"
           front_query [] _ _ (surjective_pairing _)).
Defined.
